(** * The AppMenu registrar of GnomeGlobalMenu

    A shallow embedding of the DBus registrar ([DBusRegistrar], a class
    with three mutable fields and a record of method closures) and of the
    console logger it calls, followed by the properties of the registrar's
    life cycle, of its window registry and of the logger.

    The program is TypeScript running on GJS.  What belongs to the host
    (the clock behind [new Date()], the console, GLib's main loop sources
    and Gio's session bus) is not code of the repository: calls into it
    are recorded as events in an output trace, and what the host hands
    back (clock readings, source and owner identifiers, the remote menu
    model) is taken as an input. *)

From Stdlib Require Import String Ascii List NArith ZArith Bool Lia.
From Stdlib Require Import DecimalString.
Import ListNotations.

Local Open Scope string_scope.
Local Open Scope N_scope.

(* ===================================================================== *)
(** * JavaScript values and the built-ins the logger relies on *)
(* ===================================================================== *)

Module Js.

(** What a [throw] carries: an [Error] the program makes with its
    message, or the TypeError a built-in raises (its message is the
    engine's and is left out). *)
Inductive error : Type :=
| Error (message : string)
| TypeError.

(** How an evaluation completes. *)
Inductive outcome (A : Type) : Type :=
| Returns (a : A)
| Throws (e : error).

Arguments Returns {A} a.
Arguments Throws {A} e.

Definition and_then {A B} (r : outcome A) (k : A -> outcome B) : outcome B :=
  match r with
  | Returns a => k a
  | Throws e => Throws e
  end.

(** [l.map(f)] for an [f] that may throw: left to right, the first
    throw ends it. *)
Fixpoint map_outcome {A B} (f : A -> outcome B) (l : list A)
  : outcome (list B) :=
  match l with
  | [] => Returns []
  | x :: rest =>
      and_then (f x) (fun y =>
      and_then (map_outcome f rest) (fun ys => Returns (y :: ys)))
  end.

(** An object, seen through the two built-ins the program applies to
    objects: what string conversion gives for it and what
    [JSON.stringify] gives for it ([None] is the result [undefined]).
    Either may throw: [JSON.stringify] does on a cyclic structure, on an
    object that holds a BigInt and when a [toJSON] method throws. *)
Record object : Type := {
  obj_to_string : outcome string;
  obj_stringify : outcome (option string)
}.

(** The values a caller can hand to the logger ([unknown] in the
    source).  A number is given by the text number-to-string conversion
    produces for it; plain objects, arrays, class instances and every
    other value whose [typeof] is 'object', [null] apart, are
    [Object]s. *)
Inductive value : Type :=
| Undefined
| Null
| Bool (b : bool)
| Number (text : string)
| BigInt (z : Z)
| Str (s : string)
| Symbol
| Function (source : string)
| Object (o : object).

(** The result of [typeof]. *)
Inductive type_name : Type :=
| t_undefined | t_object | t_boolean | t_number | t_bigint | t_string
| t_symbol | t_function.

Definition typeof (v : value) : type_name :=
  match v with
  | Undefined => t_undefined
  | Null => t_object
  | Bool _ => t_boolean
  | Number _ => t_number
  | BigInt _ => t_bigint
  | Str _ => t_string
  | Symbol => t_symbol
  | Function _ => t_function
  | Object _ => t_object
  end.

(** [typeof v === 'object'] *)
Definition is_object (v : value) : bool :=
  match typeof v with
  | t_object => true
  | _ => false
  end.

(** The decimal digits of an integer: the string conversion of a BigInt,
    and of a number that is an integer of at most 53 bits (the window
    identifiers, the identifiers the host hands out, item counts and
    the fields of a date are such). *)
Definition string_of_Z (z : Z) : string :=
  NilZero.string_of_int (Z.to_int z).

Definition string_of_N (n : N) : string := string_of_Z (Z.of_N n).

Definition string_of_bool (b : bool) : string :=
  if b then "true" else "false".

(** ** JSON.stringify *)

Definition quote : string := String (ascii_of_nat 34) EmptyString.
Definition backslash : string := String (ascii_of_nat 92) EmptyString.

Definition hex_digit (n : nat) : string :=
  String (ascii_of_nat (if Nat.ltb n 10 then 48 + n else 87 + n)) EmptyString.

Definition escape_char (c : ascii) : string :=
  let n := nat_of_ascii c in
  if Nat.eqb n 34 then backslash ++ quote
  else if Nat.eqb n 92 then backslash ++ backslash
  else if Nat.eqb n 8 then backslash ++ "b"
  else if Nat.eqb n 9 then backslash ++ "t"
  else if Nat.eqb n 10 then backslash ++ "n"
  else if Nat.eqb n 12 then backslash ++ "f"
  else if Nat.eqb n 13 then backslash ++ "r"
  else if Nat.ltb n 32
       then backslash ++ "u00" ++ hex_digit (Nat.div n 16) ++ hex_digit (Nat.modulo n 16)
  else String c EmptyString.

Fixpoint escape (s : string) : string :=
  match s with
  | EmptyString => EmptyString
  | String c rest => escape_char c ++ escape rest
  end.

Definition quoted (s : string) : string := quote ++ escape s ++ quote.

(** The text of a number that is not finite. *)
Definition not_finite (text : string) : bool :=
  String.eqb text "NaN" || String.eqb text "Infinity"
  || String.eqb text "-Infinity".

(** [JSON.stringify v]; [None] stands for the result [undefined]. *)
Definition JSON_stringify (v : value) : outcome (option string) :=
  match v with
  | Undefined | Symbol | Function _ => Returns None
  | Null => Returns (Some "null")
  | Bool b => Returns (Some (string_of_bool b))
  | Number text => Returns (Some (if not_finite text then "null" else text))
  | BigInt _ => Throws TypeError
  | Str s => Returns (Some (quoted s))
  | Object o => obj_stringify o
  end.

(** ** ToString, and the conversion [join] applies to each element *)

Definition to_string (v : value) : outcome string :=
  match v with
  | Undefined => Returns "undefined"
  | Null => Returns "null"
  | Bool b => Returns (string_of_bool b)
  | Number text => Returns text
  | BigInt z => Returns (string_of_Z z)
  | Str s => Returns s
  | Symbol => Throws TypeError
  | Function source => Returns source
  | Object o => obj_to_string o
  end.

(** [arr.join(sep)]: [undefined] and [null] elements give the empty
    string, every other element its ToString, taken left to right. *)
Definition join (sep : string) (arr : list value) : outcome string :=
  let piece e := match e with
                 | Undefined | Null => Returns ""
                 | _ => to_string e
                 end in
  and_then (map_outcome piece arr) (fun pieces =>
  Returns (String.concat sep pieces)).

End Js.

(* ===================================================================== *)
(** * The JavaScript [Map], keyed by numbers *)
(* ===================================================================== *)

Module JsMap.

(** A [Map<number, V>] keeps its entries in insertion order and holds a
    key at most once; the entries are listed oldest first. *)
Definition t (V : Type) : Type := list (N * V).

Definition empty {V} : t V := [].

Definition has {V} (k : N) (m : t V) : bool :=
  existsb (fun e => N.eqb (fst e) k) m.

Definition get {V} (k : N) (m : t V) : option V :=
  option_map snd (find (fun e => N.eqb (fst e) k) m).

(** [m.delete(k)]: the entry of [k] goes, the others keep their order. *)
Definition delete {V} (k : N) (m : t V) : t V :=
  filter (fun e => negb (N.eqb (fst e) k)) m.

(** [Array.from(m.keys())] *)
Definition keys {V} (m : t V) : list N := map fst m.

(** The entries, as the iterator of [for (const [k, v] of m)] yields them. *)
Definition entries {V} (m : t V) : list (N * V) := m.

(** The invariant of the data structure: no key twice. *)
Definition wf {V} (m : t V) : Prop := NoDup (keys m).

End JsMap.

(* ===================================================================== *)
(** * The host: clock, console, main loop and session bus *)
(* ===================================================================== *)

Module Host.

(** The four readings [log_header] takes from a [Date]. *)
Record Date : Type := {
  getHours : N;
  getMinutes : N;
  getSeconds : N;
  getMilliseconds : N
}.

(** What the program asks of the host, in the order it asks. *)
Inductive event : Type :=
| console_log (header concat : string)
| bus_own_name (name : string)
| bus_unown_name (owner_id : N)
| dbus_export (object_path : string)
| dbus_unexport
| timeout_add_seconds (interval : N)
| source_remove (source_id : N)
| emit_signal (signal_name : string) (body : list string)
| menu_model_get (bus_name object_path : string).

(** The host as the program has used it so far: how many times the clock
    was read and what was asked, oldest first. *)
Record io : Type := {
  dates : nat;
  out : list event
}.

Definition io0 : io := {| dates := 0; out := [] |}.

(** The object [Gio.DBusMenuModel.get] returns, as far as [RegisterWindow]
    looks at it: its string conversion, its number of items and the
    string conversion of what [get_item_attribute_value (i, null, null)]
    yields.  The three are taken to return: the runs in which one of
    these calls into Gio raises are not covered, and what is proved of
    [RegisterWindow] is proved for the runs in which they answer. *)
Record MenuModel : Type := {
  mm_to_string : string;
  get_n_items : nat;
  item_to_string : nat -> string
}.

End Host.

(* ===================================================================== *)
(** * Computations: a mutable object, the host, and [throw] *)
(* ===================================================================== *)

Module Eff.
Import Host.

Abbreviation outcome := Js.outcome.
Abbreviation Returns := Js.Returns.
Abbreviation Throws := Js.Throws.

(** Where a call ends: how it completed, and the object and the host as
    it left them (a [throw] keeps what was done before it). *)
Record ending (O A : Type) : Type := {
  result : outcome A;
  this : O;
  host : io
}.

Arguments result {O A} _.
Arguments this {O A} _.
Arguments host {O A} _.

Definition t (O A : Type) : Type := O -> io -> ending O A.

Definition ret {O A} (a : A) : t O A :=
  fun s w => {| result := Returns a; this := s; host := w |}.

Definition bind {O A B} (c : t O A) (k : A -> t O B) : t O B :=
  fun s w =>
    let r := c s w in
    match result r with
    | Returns a => k a (this r) (host r)
    | Throws e => {| result := Throws e; this := this r; host := host r |}
    end.

Definition throw {O A} (e : Js.error) : t O A :=
  fun s w => {| result := Throws e; this := s; host := w |}.

(** An evaluation that touches neither the object nor the host. *)
Definition lift {O A} (r : outcome A) : t O A :=
  fun s w => {| result := r; this := s; host := w |}.

Definition read {O} : t O O :=
  fun s w => {| result := Returns s; this := s; host := w |}.

Definition assign {O} (s' : O) : t O unit :=
  fun _ w => {| result := Returns tt; this := s'; host := w |}.

(** One request to the host. *)
Definition emit {O} (e : event) : t O unit :=
  fun s w => {| result := Returns tt; this := s;
                host := {| dates := dates w; out := out w ++ [e] |} |}.

(** [new Date()]: the next reading of the clock. *)
Definition new_Date {O} (clock : nat -> Date) : t O Date :=
  fun s w => {| result := Returns (clock (dates w)); this := s;
                host := {| dates := S (dates w); out := out w |} |}.

(** [if (c) body] without an else branch. *)
Definition when {O} (c : bool) (body : t O unit) : t O unit :=
  if c then body else ret tt.

(** [for (const x of l) body] *)
Fixpoint for_each {O X} (l : list X) (body : X -> t O unit) : t O unit :=
  match l with
  | [] => ret tt
  | x :: rest => bind (body x) (fun _ => for_each rest body)
  end.

(** [quiet c]: from every object and host, [c] returns (it does not
    throw) and the object is as before. *)
Definition quiet {O A} (c : t O A) : Prop :=
  forall s w, this (c s w) = s /\ exists a, result (c s w) = Returns a.

End Eff.

Declare Scope eff_scope.
Delimit Scope eff_scope with eff.
Notation "x <- c1 ;; c2" := (Eff.bind c1 (fun x => c2))
  (at level 61, c1 at next level, right associativity) : eff_scope.
Notation "c1 ;; c2" := (Eff.bind c1 (fun _ => c2))
  (at level 61, right associativity) : eff_scope.

(* ===================================================================== *)
(** * The logger ([logger/log.ts], [logger/type_enum.ts]) *)
(* ===================================================================== *)

Module Logger.
Import Host.

(** [LogType]: the five string literals; [log_types.X] is the literal X. *)
Inductive LogType : Type := INFO | WARN | ERROR | THROW | DEBUG.

Definition LogType_string (type : LogType) : string :=
  match type with
  | INFO => "INFO"
  | WARN => "WARN"
  | ERROR => "ERROR"
  | THROW => "THROW"
  | DEBUG => "DEBUG"
  end.

(** The template of [log_header], for a clock reading [date]. *)
Definition header_of (type : LogType) (date : Date) : string :=
  "[" ++ LogType_string type ++ ": "
      ++ Js.string_of_N (getHours date) ++ ":"
      ++ Js.string_of_N (getMinutes date) ++ ":"
      ++ Js.string_of_N (getSeconds date) ++ ":"
      ++ Js.string_of_N (getMilliseconds date) ++ "]".

(** [args.map(arg => typeof arg === 'object' ? JSON.stringify(arg) : arg)
        .join(' ')]: every object is stringified first, then the pieces
    are joined; either step may throw. *)
Definition concat_of (args : list Js.value) : Js.outcome string :=
  Js.and_then
    (Js.map_outcome
       (fun arg =>
          if Js.is_object arg
          then Js.and_then (Js.JSON_stringify arg) (fun text =>
               Js.Returns match text with
                          | Some s => Js.Str s
                          | None => Js.Undefined
                          end)
          else Js.Returns arg) args)
    (fun mapped => Js.join " " mapped).

Section WithClock.
Context {O : Type}.
Variable clock : nat -> Date.

Local Open Scope eff_scope.

Definition log_header (type : LogType) : Eff.t O string :=
  date <- Eff.new_Date clock ;;
  Eff.ret (header_of type date).

Definition log (type : LogType) (args : list Js.value) : Eff.t O unit :=
  header <- log_header type ;;
  concat <- Eff.lift (concat_of args) ;;
  match type with
  | INFO | WARN | ERROR | DEBUG => Eff.emit (console_log header concat)
  | THROW => Eff.throw (Js.Error (header ++ " " ++ concat))
  end.

Definition info (args : list Js.value) : Eff.t O unit := log INFO args.
Definition warn (args : list Js.value) : Eff.t O unit := log WARN args.
Definition error (args : list Js.value) : Eff.t O unit := log ERROR args.
Definition debug (args : list Js.value) : Eff.t O unit := log DEBUG args.
Definition throw_err (args : list Js.value) : Eff.t O unit := log THROW args.

End WithClock.

End Logger.

(* ===================================================================== *)
(** * The registrar ([dbus/registrar.ts]) and the entry point *)
(* ===================================================================== *)

Module DBusRegistrar.
Import Host.

Definition INTERFACE : string := "com.canonical.AppMenu.Registrar".
Definition OBJECT_PATH : string := "/com/canonical/AppMenu/Registrar".
Definition XML_INTERFACE : string := "registrar.xml".

(** The value type of [_window_map]. *)
Record window : Type := {
  window_id : N;
  menu_object_path : string
}.

(** The object as a JavaScript value: a plain object with the two
    properties, whose string conversion is that of [Object.prototype]. *)
Definition window_value (w : window) : Js.value :=
  Js.Object
    {| Js.obj_to_string := Js.Returns "[object Object]";
       Js.obj_stringify :=
         Js.Returns
           (Some ("{" ++ Js.quoted "window_id" ++ ":"
                      ++ Js.string_of_N (window_id w) ++ ","
                      ++ Js.quoted "menu_object_path" ++ ":"
                      ++ Js.quoted (menu_object_path w) ++ "}")) |}.

(** The mutable fields of the class.  [_dbus] and [_iface] are assigned
    once, in the constructor, and never again; the exported object lives
    with the host. *)
Record t : Type := {
  _bus_id : N;
  _service_id : N;
  _window_map : JsMap.t window
}.

(** The field initialisers. *)
Definition fresh : t :=
  {| _bus_id := 0; _service_id := 0; _window_map := JsMap.empty |}.

Definition set_bus_id (v : N) (self : t) : t :=
  {| _bus_id := v; _service_id := _service_id self;
     _window_map := _window_map self |}.

Definition set_service_id (v : N) (self : t) : t :=
  {| _bus_id := _bus_id self; _service_id := v;
     _window_map := _window_map self |}.

Definition set_window_map (m : JsMap.t window) (self : t) : t :=
  {| _bus_id := _bus_id self; _service_id := _service_id self;
     _window_map := m |}.

(** The result of [GetMenuForWindow]. *)
Record menu_reply : Type := {
  service : string;
  menuObjectPath : string
}.

(** [is_acquired]: both identifiers above zero. *)
Definition is_acquired (self : t) : bool :=
  (0 <? _bus_id self) && (0 <? _service_id self).

Section WithHost.
Variable clock : nat -> Date.
Variable DBusMenuModel_get : string -> string -> MenuModel.

Local Open Scope eff_scope.
Local Abbreviation M := (Eff.t t).

(** The constructor, once the path of the interface file is resolved:
    it logs the path, reads the XML and wraps [_methods]. *)
Definition constructor (path : string) : M unit :=
  Logger.info clock [Js.Str ("Path: " ++ path)].

Definition release_bus : M unit :=
  Logger.warn clock [Js.Str "Releasing bus"] ;;
  self <- Eff.read ;;
  Eff.when (0 <? _service_id self)
           (Eff.emit (source_remove (_service_id self))) ;;
  self <- Eff.read ;;
  Eff.when (0 <? _bus_id self)
           (Eff.emit (bus_unown_name (_bus_id self))) ;;
  (* [this._dbus] is the object the constructor wrapped: always there *)
  Eff.emit dbus_unexport.

(** [owner_id] is what [Gio.bus_own_name] returns. *)
Definition acquire_bus (owner_id : N) : M unit :=
  release_bus ;;
  Logger.info clock [Js.Str "Acquiring bus"] ;;
  Eff.emit (bus_own_name INTERFACE) ;;
  self <- Eff.read ;;
  Eff.assign (set_bus_id owner_id self) ;;
  self <- Eff.read ;;
  Logger.info clock [Js.Str ("Bus ID: " ++ Js.string_of_N (_bus_id self))].

Definition on_bus_acquired (name : string) : M unit :=
  Logger.info clock [Js.Str "Bus acquired"; Js.Str name] ;;
  Eff.emit (dbus_export OBJECT_PATH).

(** [source_id] is what [GLib.timeout_add_seconds] returns. *)
Definition on_name_acquired (name : string) (source_id : N) : M unit :=
  Logger.info clock [Js.Str "Bus name acquired"; Js.Str name] ;;
  Eff.emit (timeout_add_seconds 5) ;;
  self <- Eff.read ;;
  Eff.assign (set_service_id source_id self).

Definition on_name_lost (name : string) : M unit :=
  Logger.error clock [Js.Str "Bus name lost"; Js.Str name] ;;
  self <- Eff.read ;;
  Eff.when (0 <? _service_id self)
           (Eff.emit (source_remove (_service_id self))) ;;
  self <- Eff.read ;;
  Eff.assign (set_service_id 0 self).

Definition dbus_log (type timestamp message : string) : M unit :=
  self <- Eff.read ;;
  if negb (is_acquired self) then Eff.ret tt
  else Eff.emit (emit_signal "Log" [type; timestamp; message]).

(** ** [_methods] *)

Definition RegisterWindow (window_id : N) (menu_object_path : string)
  : M unit :=
  Logger.info clock
    [Js.Str ("Registering window: " ++ Js.string_of_N window_id)] ;;
  Logger.info clock [Js.Str ("Menu Object Path: " ++ menu_object_path)] ;;
  self <- Eff.read ;;
  Eff.when (JsMap.has window_id (_window_map self))
           (Logger.warn clock [Js.Str "Window already registered"]) ;;
  Eff.emit (menu_model_get "com.canonical.menu" menu_object_path) ;;
  let mm := DBusMenuModel_get "com.canonical.menu" menu_object_path in
  Logger.info clock [Js.Str ("Menu Model: " ++ mm_to_string mm)] ;;
  Logger.info clock
    [Js.Str ("Menu Model: " ++ Js.string_of_N (N.of_nat (get_n_items mm)))] ;;
  let items := get_n_items mm in
  Eff.for_each (seq 0 items)
    (fun i => Logger.info clock [Js.Str ("Item: " ++ item_to_string mm i)]).

Definition UnregisterWindow (window_id : N) : M unit :=
  Logger.info clock
    [Js.Str ("Unregistering window: " ++ Js.string_of_N window_id)] ;;
  self <- Eff.read ;;
  if negb (JsMap.has window_id (_window_map self))
  then Logger.warn clock [Js.Str "Window not registered"]
  else
    let window := JsMap.get window_id (_window_map self) in
    Eff.assign (set_window_map (JsMap.delete window_id (_window_map self)) self).

Definition GetMenuForWindow (window_id : N) : M menu_reply :=
  Logger.info clock
    [Js.Str ("Getting menu for window: " ++ Js.string_of_N window_id)] ;;
  Eff.ret {| service := ""; menuObjectPath := "" |}.

Definition GetWindowList : M (list N) :=
  Logger.info clock [Js.Str "Getting window list"] ;;
  self <- Eff.read ;;
  Eff.for_each (JsMap.entries (_window_map self))
    (fun '(window_id, menu_object_path) =>
       text <- Eff.lift (Js.to_string (window_value menu_object_path)) ;;
       Logger.info clock
         [Js.Str ("Window: " ++ Js.string_of_N window_id ++ " - " ++ text)]) ;;
  self <- Eff.read ;;
  Eff.ret (JsMap.keys (_window_map self)).

Definition emmit_service_started : M unit :=
  Eff.emit (emit_signal "service_running" ["GGGM Service running"]).

(** The callback of the timer [on_name_acquired] installs; [true] is
    [GLib.SOURCE_CONTINUE]. *)
Definition heartbeat : M bool :=
  emmit_service_started ;;
  Eff.ret true.

(** [main.ts]: build the instance and acquire the bus. *)
Definition main (path : string) (owner_id : N) : io -> Eff.ending t unit :=
  (constructor path ;; acquire_bus owner_id) fresh.

(** ** What can happen to the instance *)

(** The calls that reach the registrar: the entry points its owner uses,
    the callbacks the host delivers and the four bus methods. *)
Inductive call : Type :=
| Acquire (owner_id : N)
| BusAcquired (name : string)
| NameAcquired (name : string) (source_id : N)
| NameLost (name : string)
| Release
| DBusLog (type timestamp message : string)
| Heartbeat
| Register (window_id : N) (menu_object_path : string)
| Unregister (window_id : N)
| MenuFor (window_id : N)
| WindowList.

Definition perform (c : call) : M unit :=
  match c with
  | Acquire owner_id => acquire_bus owner_id
  | BusAcquired name => on_bus_acquired name
  | NameAcquired name source_id => on_name_acquired name source_id
  | NameLost name => on_name_lost name
  | Release => release_bus
  | DBusLog type timestamp message => dbus_log type timestamp message
  | Heartbeat => heartbeat ;; Eff.ret tt
  | Register window_id menu_object_path =>
      RegisterWindow window_id menu_object_path
  | Unregister window_id => UnregisterWindow window_id
  | MenuFor window_id => GetMenuForWindow window_id ;; Eff.ret tt
  | WindowList => GetWindowList ;; Eff.ret tt
  end.

(** A run of the process: one call after the other. *)
Definition perform_all (calls : list call) : M unit :=
  Eff.for_each calls perform.

End WithHost.

End DBusRegistrar.

(* ===================================================================== *)
(** * Sample hosts and instances *)
(* ===================================================================== *)

Module Samples.
Import Host DBusRegistrar.

(** A clock that stands at noon. *)
Definition noon : nat -> Date :=
  fun _ => {| getHours := 12; getMinutes := 0; getSeconds := 0;
              getMilliseconds := 0 |}.

(** A bus on which every menu model is empty. *)
Definition no_menu : string -> string -> MenuModel :=
  fun _ _ => {| mm_to_string := "[object Object]"; get_n_items := 0;
                item_to_string := fun _ => "null" |}.

(** An instance whose registry holds window 7. *)
Definition one_window : DBusRegistrar.t :=
  {| _bus_id := 0; _service_id := 0;
     _window_map := [(7, {| window_id := 7; menu_object_path := "/a" |})] |}.

(** An instance whose registry holds windows 7 and 9. *)
Definition two_windows : DBusRegistrar.t :=
  {| _bus_id := 1; _service_id := 2;
     _window_map := [(7, {| window_id := 7; menu_object_path := "/a" |});
                     (9, {| window_id := 9; menu_object_path := "/b" |})] |}.

(** An instance that owns the name (owner 1) and runs the timer
    (source 2). *)
Definition owned : DBusRegistrar.t :=
  {| _bus_id := 1; _service_id := 2; _window_map := JsMap.empty |}.



End Samples.

(* ===================================================================== *)
(** * Facts about the map *)
(* ===================================================================== *)

Module JsMapFacts.
Import JsMap.

Section Facts.
Context {V : Type}.
Implicit Types (m : t V) (k : N).

Lemma has_get m k : has k m = true <-> exists v, get k m = Some v.
Proof.
  unfold has, get. induction m as [|[k' v'] m IH]; simpl.
  - split; [discriminate | intros [v Hv]; discriminate].
  - destruct (N.eqb k' k); simpl.
    + split; [eauto | reflexivity].
    + exact IH.
Qed.

Lemma has_delete_same m k : has k (delete k m) = false.
Proof.
  unfold has, delete. induction m as [|[k' v'] m IH]; simpl; [reflexivity|].
  destruct (N.eqb k' k) eqn:E; simpl; [exact IH|].
  rewrite E. exact IH.
Qed.

Lemma get_delete_other m k k' : k' <> k -> get k' (delete k m) = get k' m.
Proof.
  intros Hne. unfold get, delete.
  induction m as [|[k0 v0] m IH]; simpl; [reflexivity|].
  destruct (N.eqb_spec k0 k) as [->|Hk]; simpl.
  - destruct (N.eqb_spec k k') as [E|_]; [congruence | exact IH].
  - destruct (N.eqb k0 k'); [reflexivity | exact IH].
Qed.

Lemma has_delete_other m k k' : k' <> k -> has k' (delete k m) = has k' m.
Proof.
  intros Hne. unfold has, delete.
  induction m as [|[k0 v0] m IH]; simpl; [reflexivity|].
  destruct (N.eqb_spec k0 k) as [->|Hk]; simpl.
  - destruct (N.eqb_spec k k') as [E|_]; [congruence | exact IH].
  - rewrite IH. reflexivity.
Qed.

Lemma keys_delete m k : keys (delete k m) = List.remove N.eq_dec k (keys m).
Proof.
  unfold keys, delete. induction m as [|[k0 v0] m IH]; simpl; [reflexivity|].
  destruct (N.eq_dec k k0) as [->|Hk].
  - rewrite N.eqb_refl. simpl. exact IH.
  - destruct (N.eqb_spec k0 k) as [E|_]; [congruence|]. simpl. now rewrite IH.
Qed.

Lemma delete_absent m k : has k m = false -> delete k m = m.
Proof.
  unfold has, delete. induction m as [|[k0 v0] m IH]; simpl; [reflexivity|].
  destruct (N.eqb k0 k); simpl; [discriminate|].
  intros H. now rewrite IH.
Qed.

Lemma has_In_keys m k : has k m = true <-> In k (keys m).
Proof.
  unfold has, keys. rewrite existsb_exists, in_map_iff. split.
  - intros [e [He Hk]]. apply N.eqb_eq in Hk. eauto.
  - intros [e [Hk He]]. exists e. split; [exact He | now apply N.eqb_eq].
Qed.

Lemma wf_delete m k : wf m -> wf (delete k m).
Proof.
  unfold wf. rewrite keys_delete. generalize (keys m). intros l Hl.
  induction Hl as [|x l Hx Hl IH]; simpl; [constructor|].
  destruct (N.eq_dec k x); [exact IH|].
  constructor; [|exact IH].
  intros Hin. apply in_remove in Hin. tauto.
Qed.

(** With no key twice, deleting a key that is there takes one entry. *)
Lemma length_delete m k :
  wf m -> has k m = true -> S (length (delete k m)) = length m.
Proof.
  unfold wf. induction m as [|[k0 v0] m IH]; simpl; [discriminate|].
  intros Hwf. inversion Hwf as [|? ? Hnotin Hwf']; subst.
  unfold has; simpl. destruct (N.eqb_spec k0 k) as [->|Hk]; simpl.
  - intros _. rewrite delete_absent; [reflexivity|].
    destruct (has k m) eqn:E; [|reflexivity].
    apply has_In_keys in E. contradiction.
  - intros H. f_equal. apply IH; assumption.
Qed.

End Facts.

End JsMapFacts.

(* ===================================================================== *)
(** * Computations that return and leave the object alone *)
(* ===================================================================== *)

Module EffFacts.
Import Host Eff.

Section Quiet.
Context {O : Type}.

Lemma quiet_ret {A} (a : A) : quiet (O:=O) (ret a).
Proof. intros s w. simpl. eauto. Qed.

Lemma quiet_read : quiet (O:=O) read.
Proof. intros s w. simpl. eauto. Qed.

Lemma quiet_emit e : quiet (O:=O) (emit e).
Proof. intros s w. simpl. eauto. Qed.

Lemma quiet_new_Date clock : quiet (O:=O) (new_Date clock).
Proof. intros s w. simpl. eauto. Qed.

Lemma quiet_bind {A B} (c : Eff.t O A) (k : A -> Eff.t O B) :
  quiet c -> (forall a, quiet (k a)) -> quiet (bind c k).
Proof.
  intros Hc Hk s w. unfold bind.
  destruct (Hc s w) as [Hs [a Ha]]. rewrite Ha, Hs. apply Hk.
Qed.

Lemma quiet_when (c : bool) (body : Eff.t O unit) :
  quiet body -> quiet (when c body).
Proof. destruct c; simpl; [trivial | intros _; apply quiet_ret]. Qed.

Lemma quiet_for_each {X} (l : list X) (body : X -> Eff.t O unit) :
  (forall x, quiet (body x)) -> quiet (for_each l body).
Proof.
  intros Hbody. induction l as [|x l IH]; simpl.
  - apply quiet_ret.
  - apply quiet_bind; [apply Hbody | intros _; exact IH].
Qed.

Lemma quiet_this {A} (c : Eff.t O A) s w : quiet c -> this (c s w) = s.
Proof. intros H. apply H. Qed.

Lemma quiet_unit (c : Eff.t O unit) s w : quiet c -> result (c s w) = Returns tt.
Proof. intros H. destruct (H s w) as [_ [[] Ha]]. exact Ha. Qed.

(** Stepping over a first step that is quiet, or that reads the object. *)
Lemma bind_quiet {B} (c : Eff.t O unit) (k : unit -> Eff.t O B) s w :
  quiet c -> bind c k s w = k tt s (host (c s w)).
Proof.
  intros H. unfold bind. rewrite (quiet_unit c s w H), (quiet_this c s w H).
  reflexivity.
Qed.

Lemma bind_read {B} (k : O -> Eff.t O B) s w : bind read k s w = k s s w.
Proof. reflexivity. Qed.

Lemma bind_assign {B} (k : unit -> Eff.t O B) s' s w :
  bind (assign s') k s w = k tt s' w.
Proof. reflexivity. Qed.

End Quiet.

End EffFacts.

Create HintDb quiet.

#[export] Hint Resolve EffFacts.quiet_ret EffFacts.quiet_read
  EffFacts.quiet_emit EffFacts.quiet_new_Date EffFacts.quiet_when
  EffFacts.quiet_for_each : quiet.

(* ===================================================================== *)
(** * The logger *)
(* ===================================================================== *)

Module LoggerFacts.
Import Host Eff Logger EffFacts.

(** A single string argument is logged as it is. *)
Lemma concat_of_string (s : string) : concat_of [Js.Str s] = Returns s.
Proof. reflexivity. Qed.

(** Below THROW, and when its arguments convert to text, [log] writes
    one line to the console and returns. *)
Lemma log_console {O} clock type args concat (s : O) w :
  type <> THROW ->
  concat_of args = Returns concat ->
  log clock type args s w =
  {| result := Returns tt; this := s;
     host := {| dates := S (dates w);
                out := out w ++ [console_log (header_of type (clock (dates w)))
                                             concat] |} |}.
Proof.
  intros H E. unfold log, log_header, bind, new_Date, ret, lift. simpl.
  rewrite E. destruct type; try reflexivity. congruence.
Qed.

Lemma quiet_log {O} clock type args concat :
  type <> THROW -> concat_of args = Returns concat ->
  quiet (O:=O) (log clock type args).
Proof.
  intros H E s w. rewrite (log_console clock type args concat s w H E).
  simpl. eauto.
Qed.

Lemma quiet_info {O} clock args concat :
  concat_of args = Returns concat -> quiet (O:=O) (info clock args).
Proof. apply quiet_log. discriminate. Qed.

Lemma quiet_warn {O} clock args concat :
  concat_of args = Returns concat -> quiet (O:=O) (warn clock args).
Proof. apply quiet_log. discriminate. Qed.

Lemma quiet_error {O} clock args concat :
  concat_of args = Returns concat -> quiet (O:=O) (error clock args).
Proof. apply quiet_log. discriminate. Qed.

End LoggerFacts.

#[export] Hint Resolve LoggerFacts.quiet_info LoggerFacts.quiet_warn
  LoggerFacts.quiet_error : quiet.

#[export] Hint Extern 1 (Logger.concat_of _ = Js.Returns _) =>
  reflexivity : quiet.

(** A call of the logger with string arguments is quiet. *)
Ltac logs :=
  first [ eapply LoggerFacts.quiet_info | eapply LoggerFacts.quiet_warn
        | eapply LoggerFacts.quiet_error ];
  reflexivity.

(** Runs the steps of a computation whose branches are decided. *)
Ltac eff_run :=
  cbv beta iota zeta delta
    [Eff.bind Eff.ret Eff.read Eff.assign Eff.emit Eff.new_Date Eff.when
     Eff.throw Eff.result Eff.this Eff.host Host.dates Host.out
     Logger.info Logger.warn Logger.error Logger.debug Logger.throw_err
     Logger.log Logger.log_header Eff.lift Logger.concat_of Js.and_then
     Js.map_outcome Js.is_object Js.typeof Js.JSON_stringify Js.join
     Js.to_string String.concat];
  simpl.

(** Splits a sequence of steps and closes each with the lemmas above. *)
Ltac quiet_steps :=
  repeat first
    [ logs
    | apply EffFacts.quiet_bind; [ | intros ? ]
    | apply EffFacts.quiet_for_each; intros ?
    | apply EffFacts.quiet_when
    | solve [ auto with quiet ] ].

(* ===================================================================== *)
(** * The registrar *)
(* ===================================================================== *)

Import Host Eff Logger DBusRegistrar EffFacts LoggerFacts.

Section RegistrarFacts.
Variable clock : nat -> Date.
Variable DBusMenuModel_get : string -> string -> MenuModel.

(** ** Which calls leave the fields alone *)

Lemma quiet_release_bus : quiet (release_bus clock).
Proof. unfold release_bus. quiet_steps. Qed.

Lemma quiet_on_bus_acquired name : quiet (on_bus_acquired clock name).
Proof. unfold on_bus_acquired. quiet_steps. Qed.

Lemma quiet_dbus_log type timestamp message :
  quiet (dbus_log type timestamp message).
Proof.
  intros s w. unfold dbus_log, bind. simpl.
  destruct (is_acquired s); simpl; eauto.
Qed.

Lemma quiet_heartbeat : quiet heartbeat.
Proof. unfold heartbeat, emmit_service_started. quiet_steps. Qed.

Lemma quiet_RegisterWindow window_id menu_object_path :
  quiet (RegisterWindow clock DBusMenuModel_get window_id menu_object_path).
Proof. unfold RegisterWindow. quiet_steps. Qed.

Lemma quiet_GetMenuForWindow window_id :
  quiet (GetMenuForWindow clock window_id).
Proof. unfold GetMenuForWindow. quiet_steps. Qed.

Lemma quiet_GetWindowList : quiet (GetWindowList clock).
Proof.
  unfold GetWindowList. quiet_steps.
  destruct x as [window_id menu_object_path]. quiet_steps.
Qed.

(** [GetWindowList] answers with the keys of the registry. *)
Lemma GetWindowList_result s w :
  result (GetWindowList clock s w) = Returns (JsMap.keys (_window_map s)).
Proof.
  unfold GetWindowList.
  rewrite bind_quiet by logs.
  rewrite bind_read.
  rewrite bind_quiet
    by (apply quiet_for_each; intros [k v]; logs).
  rewrite bind_read. reflexivity.
Qed.

(** ** What the other calls do to the fields *)

Lemma acquire_bus_ending owner_id s w :
  result (acquire_bus clock owner_id s w) = Returns tt /\
  this (acquire_bus clock owner_id s w) = set_bus_id owner_id s.
Proof.
  unfold acquire_bus.
  rewrite bind_quiet by apply quiet_release_bus.
  rewrite bind_quiet by logs.
  rewrite bind_quiet by apply quiet_emit.
  rewrite bind_read, bind_assign, bind_read.
  split; [apply quiet_unit | apply quiet_this]; logs.
Qed.

Lemma on_name_acquired_ending name source_id s w :
  result (on_name_acquired clock name source_id s w) = Returns tt /\
  this (on_name_acquired clock name source_id s w) = set_service_id source_id s.
Proof.
  unfold on_name_acquired.
  rewrite bind_quiet by logs.
  rewrite bind_quiet by apply quiet_emit.
  rewrite bind_read. split; reflexivity.
Qed.

Lemma on_name_lost_ending name s w :
  result (on_name_lost clock name s w) = Returns tt /\
  this (on_name_lost clock name s w) = set_service_id 0 s.
Proof.
  unfold on_name_lost.
  rewrite bind_quiet by logs.
  rewrite bind_read.
  rewrite bind_quiet by (apply quiet_when; apply quiet_emit).
  rewrite bind_read. split; reflexivity.
Qed.

Lemma UnregisterWindow_ending window_id s w :
  result (UnregisterWindow clock window_id s w) = Returns tt /\
  this (UnregisterWindow clock window_id s w) =
    if JsMap.has window_id (_window_map s)
    then set_window_map (JsMap.delete window_id (_window_map s)) s
    else s.
Proof.
  unfold UnregisterWindow.
  rewrite bind_quiet by logs.
  rewrite bind_read.
  destruct (JsMap.has window_id (_window_map s)); simpl negb; cbv iota.
  - split; reflexivity.
  - split; [apply quiet_unit | apply quiet_this]; logs.
Qed.

(** No call throws; a call changes at most one field. *)
Lemma perform_ending c s w :
  result (perform clock DBusMenuModel_get c s w) = Returns tt /\
  this (perform clock DBusMenuModel_get c s w) =
    match c with
    | Acquire owner_id => set_bus_id owner_id s
    | NameAcquired _ source_id => set_service_id source_id s
    | NameLost _ => set_service_id 0 s
    | Unregister id =>
        set_window_map (JsMap.delete id (_window_map s)) s
    | _ => s
    end.
Proof.
  destruct c as [owner_id | name | name source_id | name | | type timestamp message
                 | | id path | id | id | ]; simpl perform.
  - apply acquire_bus_ending.
  - split; [apply quiet_unit | apply quiet_this]; apply quiet_on_bus_acquired.
  - apply on_name_acquired_ending.
  - apply on_name_lost_ending.
  - split; [apply quiet_unit | apply quiet_this]; apply quiet_release_bus.
  - split; [apply quiet_unit | apply quiet_this]; apply quiet_dbus_log.
  - assert (H : quiet (bind heartbeat (fun _ => ret tt)))
      by (apply quiet_bind; [apply quiet_heartbeat | intros; apply quiet_ret]).
    split; [apply quiet_unit | apply quiet_this]; exact H.
  - split; [apply quiet_unit | apply quiet_this]; apply quiet_RegisterWindow.
  - destruct (UnregisterWindow_ending id s w) as [-> ->].
    split; [reflexivity|].
    destruct (JsMap.has id (_window_map s)) eqn:E; [reflexivity|].
    rewrite (JsMapFacts.delete_absent _ _ E). destruct s; reflexivity.
  - assert (H : quiet (bind (GetMenuForWindow clock id) (fun _ => ret tt)))
      by (apply quiet_bind; [apply quiet_GetMenuForWindow | intros; apply quiet_ret]).
    split; [apply quiet_unit | apply quiet_this]; exact H.
  - assert (H : quiet (bind (GetWindowList clock) (fun _ => ret tt)))
      by (apply quiet_bind; [apply quiet_GetWindowList | intros; apply quiet_ret]).
    split; [apply quiet_unit | apply quiet_this]; exact H.
Qed.

(** Whatever is called, in whatever order: the process never throws and
    the registry, empty at the start, stays empty. *)
Lemma perform_all_registry_empty calls s w :
  _window_map s = [] ->
  result (perform_all clock DBusMenuModel_get calls s w) = Returns tt /\
  _window_map (this (perform_all clock DBusMenuModel_get calls s w)) = [].
Proof.
  unfold perform_all. revert s w.
  induction calls as [|c calls IH]; intros s w Hs; simpl.
  - split; [reflexivity | exact Hs].
  - unfold bind.
    destruct (perform_ending c s w) as [Hr Hm]. rewrite Hr, Hm.
    apply IH. destruct c; try exact Hs.
    simpl. rewrite Hs. reflexivity.
Qed.

End RegistrarFacts.

(* ===================================================================== *)
(** * The life cycle of the bus name *)
(* ===================================================================== *)

Import Samples.

Lemma is_acquired_fresh : is_acquired fresh = false.
Proof. reflexivity. Qed.

Lemma is_acquired_iff self :
  is_acquired self = true <-> _bus_id self <> 0 /\ _service_id self <> 0.
Proof.
  unfold is_acquired. rewrite andb_true_iff, !N.ltb_lt. lia.
Qed.

(** X6.  Along any run from the fresh instance, [is_acquired] can only
    hold once [acquire_bus] and the name-acquired callback have both
    run. *)
Lemma is_acquired_needs_both clock mmget calls w :
  is_acquired (this (perform_all clock mmget calls fresh w)) = true ->
  (exists owner_id, In (Acquire owner_id) calls) /\
  (exists name source_id, In (NameAcquired name source_id) calls).
Proof.
  assert (G : forall calls s w,
    (_bus_id (this (perform_all clock mmget calls s w)) <> 0 ->
       _bus_id s <> 0 \/ exists owner_id, In (Acquire owner_id) calls) /\
    (_service_id (this (perform_all clock mmget calls s w)) <> 0 ->
       _service_id s <> 0 \/
       exists name source_id, In (NameAcquired name source_id) calls)).
  { clear calls w. unfold perform_all.
    induction calls as [|c calls IH]; intros s w.
    - simpl. tauto.
    - cbn [for_each]. unfold bind at 1 2.
      destruct (perform_ending clock mmget c s w) as [Hr Ht]. rewrite Hr.
      set (s1 := this (perform clock mmget c s w)) in *.
      set (w1 := host (perform clock mmget c s w)).
      destruct (IH s1 w1) as [IHb IHs]. clearbody s1 w1. clear IH Hr.
      split; intros H.
      + destruct (IHb H) as [H1 | [o Ho]].
        * destruct c; subst s1; simpl in H1;
            solve [ left; exact H1 | right; eexists; left; reflexivity ].
        * right. exists o. right. exact Ho.
      + destruct (IHs H) as [H1 | [n [i Hi]]].
        * destruct c; subst s1; simpl in H1;
            solve [ left; exact H1 | right; do 2 eexists; left; reflexivity
                  | now elim H1 ].
        * right. exists n, i. right. exact Hi. }
  intros H. apply is_acquired_iff in H. destruct H as [Hb Hs].
  destruct (G calls fresh w) as [Gb Gs]. split.
  - destruct (Gb Hb) as [C|C]; [now elim C | exact C].
  - destruct (Gs Hs) as [C|C]; [now elim C | exact C].
Qed.

(** Releasing when nothing is held: one console line, one [unexport],
    and the fields stay at zero. *)
Lemma release_bus_fresh clock w :
  release_bus clock fresh w =
  {| result := Returns tt; this := fresh;
     host := {| dates := S (dates w);
                out := out w ++ [console_log (header_of WARN (clock (dates w)))
                                             "Releasing bus";
                                 dbus_unexport] |} |}.
Proof.
  unfold release_bus. eff_run. rewrite <- app_assoc. reflexivity.
Qed.

(** C4 (the code departs from it).  After the name was acquired (owner 1)
    and the name-acquired callback installed the timer (source 2),
    [release_bus] returns with both identifiers as they were, so
    [is_acquired] still answers true: the claim's "false after release"
    fails.  [is_acquired_fresh], [is_acquired_iff] and
    [is_acquired_needs_both] are the parts of the claim that hold. *)
Theorem is_acquired_after_release_bus :
  forall clock mmget w,
    let r := perform_all clock mmget
               [Acquire 1; BusAcquired INTERFACE; NameAcquired INTERFACE 2;
                Release] fresh w in
    result r = Returns tt /\
    this r = owned /\
    is_acquired (this r) = true.
Proof.
  intros clock mmget w r. subst r. repeat split.
Qed.

(** C5 (the code departs from it).  Two calls of [release_bus] in a row
    on an instance that holds the name and the timer: neither throws,
    but the identifiers are never put back to zero, and the second call
    asks the host again to remove source 2 and to unown owner 1. *)
Theorem release_bus_twice_keeps_identifiers :
  forall clock w,
    let r := bind (release_bus clock) (fun _ => release_bus clock) owned w in
    result r = Returns tt /\
    _bus_id (this r) = 1 /\
    _service_id (this r) = 2 /\
    is_acquired (this r) = true /\
    out (host r) =
      (out w ++
         [console_log (header_of WARN (clock (dates w))) "Releasing bus";
          source_remove 2; bus_unown_name 1; dbus_unexport;
          console_log (header_of WARN (clock (S (dates w)))) "Releasing bus";
          source_remove 2; bus_unown_name 1; dbus_unexport])%list.
Proof.
  intros clock w r. subst r. repeat split.
  unfold release_bus. eff_run. rewrite <- !app_assoc. reflexivity.
Qed.

(* ===================================================================== *)
(** * The window registry *)
(* ===================================================================== *)

(** C1 (the code departs from it).  [RegisterWindow] logs and queries the
    menu model but never stores the pair: from the fresh instance,
    after [RegisterWindow (42, "/menu/42")] the registry is still empty
    and [GetWindowList] answers the empty list, in which 42 occurs zero
    times, not once. *)
Theorem RegisterWindow_then_GetWindowList :
  forall clock mmget w,
    let r1 := RegisterWindow clock mmget 42 "/menu/42" fresh w in
    let r2 := GetWindowList clock (this r1) (host r1) in
    result r1 = Returns tt /\
    this r1 = fresh /\
    result r2 = Returns [] /\
    match result r2 with
    | Returns ids => count_occ N.eq_dec ids 42
    | Throws _ => 1%nat
    end = 0%nat.
Proof.
  intros clock mmget w r1 r2. subst r1 r2.
  pose proof (quiet_RegisterWindow clock mmget 42 "/menu/42") as Q.
  rewrite (quiet_this _ fresh w Q), (quiet_unit _ fresh w Q).
  rewrite GetWindowList_result. simpl.
  repeat split.
Qed.

(** C2 (the code departs from it).  On an instance whose registry holds
    window 7 under "/a", [RegisterWindow (7, "/b")] returns and window 7
    is still stored under "/a": nothing is overwritten.  And from the
    fresh instance, registering window 7 twice leaves the registry empty;
    with the clock at noon and empty menu models the console shows no
    warning at all. *)
Theorem RegisterWindow_keeps_stored_path :
  forall clock mmget w,
    let r := RegisterWindow clock mmget 7 "/b" one_window w in
    let r' := perform_all clock mmget [Register 7 "/a"; Register 7 "/b"]
                fresh w in
    result r = Returns tt /\
    JsMap.get 7 (_window_map (this r)) =
      Some {| window_id := 7; menu_object_path := "/a" |} /\
    result r' = Returns tt /\
    this r' = fresh /\
    out (host (perform_all noon no_menu [Register 7 "/a"; Register 7 "/b"]
                 fresh io0)) =
      [console_log "[INFO: 12:0:0:0]" "Registering window: 7";
       console_log "[INFO: 12:0:0:0]" "Menu Object Path: /a";
       menu_model_get "com.canonical.menu" "/a";
       console_log "[INFO: 12:0:0:0]" "Menu Model: [object Object]";
       console_log "[INFO: 12:0:0:0]" "Menu Model: 0";
       console_log "[INFO: 12:0:0:0]" "Registering window: 7";
       console_log "[INFO: 12:0:0:0]" "Menu Object Path: /b";
       menu_model_get "com.canonical.menu" "/b";
       console_log "[INFO: 12:0:0:0]" "Menu Model: [object Object]";
       console_log "[INFO: 12:0:0:0]" "Menu Model: 0"].
Proof.
  intros clock mmget w r r'. subst r r'.
  pose proof (quiet_RegisterWindow clock mmget 7 "/b") as Qb.
  pose proof (quiet_RegisterWindow clock mmget 7 "/a") as Qa.
  rewrite (quiet_this _ one_window w Qb), (quiet_unit _ one_window w Qb).
  split; [reflexivity|]. split; [reflexivity|].
  unfold perform_all. cbn [for_each perform].
  rewrite (bind_quiet _ _ fresh w Qa).
  rewrite (bind_quiet _ _ fresh _ Qb).
  split; [reflexivity|]. split; [reflexivity|].
  vm_compute. reflexivity.
Qed.

(** C3.  Whatever the window and whatever the registry holds,
    [GetMenuForWindow] returns the pair of empty strings. *)
Theorem GetMenuForWindow_empty_strings :
  forall clock window_id s w,
    result (GetMenuForWindow clock window_id s w) =
    Returns {| service := ""; menuObjectPath := "" |}.
Proof. intros. reflexivity. Qed.

(** C6.  For a window that is registered, [UnregisterWindow] returns,
    the window is absent afterwards, every other key has the entry it
    had (and the keys keep their order), and the two identifiers are
    untouched. *)
Theorem UnregisterWindow_removes_that_entry :
  forall clock window_id s w,
    JsMap.has window_id (_window_map s) = true ->
    let r := UnregisterWindow clock window_id s w in
    result r = Returns tt /\
    JsMap.has window_id (_window_map (this r)) = false /\
    JsMap.get window_id (_window_map (this r)) = None /\
    (forall k, k <> window_id ->
       JsMap.get k (_window_map (this r)) = JsMap.get k (_window_map s)) /\
    JsMap.keys (_window_map (this r)) =
      List.remove N.eq_dec window_id (JsMap.keys (_window_map s)) /\
    _bus_id (this r) = _bus_id s /\
    _service_id (this r) = _service_id s.
Proof.
  intros clock id s w Hhas r. subst r.
  destruct (UnregisterWindow_ending clock id s w) as [-> ->].
  rewrite Hhas. simpl.
  split; [reflexivity|].
  split; [apply JsMapFacts.has_delete_same|].
  split.
  { destruct (JsMap.get id (JsMap.delete id (_window_map s))) as [v|] eqn:E;
      [|reflexivity].
    assert (H : JsMap.has id (JsMap.delete id (_window_map s)) = true)
      by (apply JsMapFacts.has_get; eauto).
    rewrite JsMapFacts.has_delete_same in H. discriminate. }
  split; [intros k Hk; apply JsMapFacts.get_delete_other; exact Hk|].
  split; [apply JsMapFacts.keys_delete|].
  split; reflexivity.
Qed.

Lemma UnregisterWindow_removes_that_entry_witness :
  let r := UnregisterWindow noon 7 two_windows io0 in
  result r = Returns tt /\
  JsMap.has 7 (_window_map (this r)) = false /\
  JsMap.get 7 (_window_map (this r)) = None /\
  (forall k, k <> 7 ->
     JsMap.get k (_window_map (this r)) = JsMap.get k (_window_map two_windows)) /\
  JsMap.keys (_window_map (this r)) =
    List.remove N.eq_dec 7 (JsMap.keys (_window_map two_windows)) /\
  _bus_id (this r) = _bus_id two_windows /\
  _service_id (this r) = _service_id two_windows.
Proof.
  apply (UnregisterWindow_removes_that_entry noon 7 two_windows io0).
  reflexivity.
Defined.

(** X10.  With no key twice in the registry, unregistering a window
    that is there takes exactly one entry, and no key is twice in what
    is left. *)
Lemma UnregisterWindow_one_entry_less clock window_id s w :
  JsMap.wf (_window_map s) ->
  JsMap.has window_id (_window_map s) = true ->
  let r := UnregisterWindow clock window_id s w in
  S (length (_window_map (this r))) = length (_window_map s) /\
  JsMap.wf (_window_map (this r)).
Proof.
  intros Hwf Hhas r. subst r.
  rewrite (proj2 (UnregisterWindow_ending clock window_id s w)), Hhas. simpl.
  split; [apply JsMapFacts.length_delete | apply JsMapFacts.wf_delete];
    assumption.
Qed.

(** C7.  For a window that is not registered, [UnregisterWindow]
    returns, the instance is exactly as before, and the console gets the
    announcement followed by the warning. *)
Theorem UnregisterWindow_unknown_window :
  forall clock window_id s w,
    JsMap.has window_id (_window_map s) = false ->
    UnregisterWindow clock window_id s w =
    {| result := Returns tt;
       this := s;
       host := {| dates := S (S (dates w));
                  out := out w ++
                    [console_log (header_of INFO (clock (dates w)))
                       ("Unregistering window: " ++ Js.string_of_N window_id);
                     console_log (header_of WARN (clock (S (dates w))))
                       "Window not registered"] |} |}.
Proof.
  intros clock id s w Hhas.
  unfold UnregisterWindow. eff_run.
  rewrite Hhas. eff_run.
  rewrite <- app_assoc. reflexivity.
Qed.

Lemma UnregisterWindow_unknown_window_witness :
  UnregisterWindow noon 8 two_windows io0 =
  {| result := Returns tt;
     this := two_windows;
     host := {| dates := 2;
                out := [console_log "[INFO: 12:0:0:0]" "Unregistering window: 8";
                        console_log "[WARN: 12:0:0:0]" "Window not registered"] |} |}.
Proof.
  apply (UnregisterWindow_unknown_window noon 8 two_windows io0).
  reflexivity.
Defined.

(** C10.  [GetWindowList] and [GetMenuForWindow] return and leave the
    registry and the two identifiers as they found them. *)
Theorem queries_leave_the_instance :
  forall clock window_id s w,
    let r1 := GetWindowList clock s w in
    let r2 := GetMenuForWindow clock window_id s w in
    (_window_map (this r1) = _window_map s /\
     _bus_id (this r1) = _bus_id s /\
     _service_id (this r1) = _service_id s) /\
    (_window_map (this r2) = _window_map s /\
     _bus_id (this r2) = _bus_id s /\
     _service_id (this r2) = _service_id s).
Proof.
  intros clock id s w r1 r2. subst r1 r2.
  rewrite (quiet_this _ s w (quiet_GetWindowList clock)).
  rewrite (quiet_this _ s w (quiet_GetMenuForWindow clock id)).
  repeat split.
Qed.

(* ===================================================================== *)
(** * Signals and the logger *)
(* ===================================================================== *)

(** C8.  [dbus_log] returns and leaves the instance alone; the host is
    asked for exactly one [Log] signal with the three strings when
    [is_acquired] holds, and for nothing when it does not. *)
Theorem dbus_log_emits_iff_acquired :
  forall type timestamp message s w,
    let r := dbus_log type timestamp message s w in
    result r = Returns tt /\
    this r = s /\
    dates (host r) = dates w /\
    out (host r) =
      (out w ++ (if is_acquired s
                 then [emit_signal "Log" [type; timestamp; message]]
                 else []))%list.
Proof.
  intros type timestamp message s w r. subst r.
  unfold dbus_log. rewrite bind_read.
  destruct (is_acquired s); simpl.
  - repeat split.
  - rewrite app_nil_r. repeat split.
Qed.





(* ===================================================================== *)
(** * Further properties: what the host is asked, and in which order *)
(* ===================================================================== *)

(** Stepping over a first step whose ending is known. *)
Lemma bind_returns {O A B} (c : Eff.t O A) (k : A -> Eff.t O B) s w a s' w' :
  c s w = {| result := Returns a; this := s'; host := w' |} ->
  bind c k s w = k a s' w'.
Proof. intros H. unfold bind. rewrite H. reflexivity. Qed.

Lemma bind_ret {O A B} (a : A) (k : A -> Eff.t O B) s w :
  bind (ret a) k s w = k a s w.
Proof. reflexivity. Qed.

Lemma bind_emit {O B} (e : event) (k : unit -> Eff.t O B) s w :
  bind (emit e) k s w =
  k tt s {| dates := dates w; out := (out w ++ [e])%list |}.
Proof. reflexivity. Qed.

Lemma bind_log {O B} clock type args concat (k : unit -> Eff.t O B) s w :
  type <> THROW ->
  concat_of args = Returns concat ->
  bind (log clock type args) k s w =
  k tt s {| dates := S (dates w);
            out := (out w ++ [console_log (header_of type (clock (dates w)))
                                          concat])%list |}.
Proof. intros H E. apply bind_returns. apply log_console; assumption. Qed.

Lemma bind_assoc {O A B C} (c : Eff.t O A) (k : A -> Eff.t O B)
      (k' : B -> Eff.t O C) s w :
  bind (bind c k) k' s w = bind c (fun a => bind (k a) k') s w.
Proof. unfold bind. destruct (result (c s w)); reflexivity. Qed.

Lemma bind_info {O B} clock args concat (k : unit -> Eff.t O B) s w :
  concat_of args = Returns concat ->
  bind (info clock args) k s w =
  k tt s {| dates := S (dates w);
            out := (out w ++ [console_log (header_of INFO (clock (dates w)))
                                          concat])%list |}.
Proof. apply bind_log. discriminate. Qed.

Lemma bind_warn {O B} clock args concat (k : unit -> Eff.t O B) s w :
  concat_of args = Returns concat ->
  bind (warn clock args) k s w =
  k tt s {| dates := S (dates w);
            out := (out w ++ [console_log (header_of WARN (clock (dates w)))
                                          concat])%list |}.
Proof. apply bind_log. discriminate. Qed.

(** Walks through a sequence of steps, one stepping lemma at a time. *)
Ltac eff_steps :=
  repeat (rewrite ?bind_assoc;
          first [ erewrite bind_info by reflexivity
                | erewrite bind_warn by reflexivity | rewrite bind_read
                | rewrite bind_emit | rewrite bind_ret | rewrite bind_assign ];
          cbn [when fresh _service_id _bus_id set_bus_id set_service_id
               N.ltb N.compare]).

(** A loop body may be replaced by one that does the same. *)
Lemma for_each_ext {O X} (l : list X) (body body' : X -> Eff.t O unit) :
  (forall x, body x = body' x) -> for_each l body = for_each l body'.
Proof.
  intros H. induction l as [|x l IH]; simpl; [reflexivity|].
  rewrite H, IH. reflexivity.
Qed.

(** A loop that logs one string per element: one console line each, in
    order, each with its own reading of the clock. *)
Lemma for_each_info_ending {O X} clock (f : X -> string) (l : list X)
      (s : O) w :
  for_each l (fun x => info clock [Js.Str (f x)]) s w =
  {| result := Returns tt; this := s;
     host := {| dates := (dates w + length l)%nat;
                out := (out w ++
                  map (fun p => console_log (header_of INFO (clock (fst p)))
                                            (f (snd p)))
                      (combine (seq (dates w) (length l)) l))%list |} |}.
Proof.
  revert w. induction l as [|x l IH]; intros w.
  - simpl. rewrite Nat.add_0_r, app_nil_r. destruct w; reflexivity.
  - cbn [for_each]. rewrite bind_quiet by logs.
    rewrite IH. unfold info. erewrite log_console by first [discriminate | reflexivity].
    cbn [host dates out length seq combine map fst snd].
    rewrite <- app_assoc, Nat.add_succ_r. reflexivity.
Qed.

(** X1.  [release_bus] returns and changes no field.  It writes its
    warning, asks for the timer source to be removed only when
    [_service_id] is above zero, for the name to be unowned only when
    [_bus_id] is above zero, and always for the object to be unexported,
    in that order. *)
Theorem release_bus_requests :
  forall clock s w,
    release_bus clock s w =
    {| result := Returns tt; this := s;
       host := {| dates := S (dates w);
                  out := (out w ++
                    [console_log (header_of WARN (clock (dates w)))
                                 "Releasing bus"] ++
                    (if 0 <? _service_id s
                     then [source_remove (_service_id s)] else []) ++
                    (if 0 <? _bus_id s
                     then [bus_unown_name (_bus_id s)] else []) ++
                    [dbus_unexport])%list |} |}.
Proof.
  intros clock s w. unfold release_bus. eff_run.
  destruct (0 <? _service_id s); destruct (0 <? _bus_id s); eff_run;
    rewrite <- ?app_assoc; reflexivity.
Qed.

(** X2.  [acquire_bus] starts with everything [release_bus] does, on the
    same instance and host; after that it announces itself, asks for
    the well-known name, stores the owner identifier it is handed (and
    nothing else) and logs it. *)
Theorem acquire_bus_releases_then_owns :
  forall clock owner_id s w,
    let r0 := release_bus clock s w in
    let r := acquire_bus clock owner_id s w in
    result r = Returns tt /\
    this r = set_bus_id owner_id s /\
    dates (host r) = S (S (dates (host r0))) /\
    out (host r) =
      (out (host r0) ++
         [console_log (header_of INFO (clock (dates (host r0))))
                      "Acquiring bus";
          bus_own_name "com.canonical.AppMenu.Registrar";
          console_log (header_of INFO (clock (S (dates (host r0)))))
                      ("Bus ID: " ++ Js.string_of_N owner_id)])%list.
Proof.
  intros clock owner_id s w r0 r. subst r0 r.
  unfold acquire_bus.
  rewrite bind_quiet by apply quiet_release_bus.
  set (w0 := host (release_bus clock s w)).
  eff_run. rewrite <- !app_assoc. repeat split.
Qed.

(** X3.  When the host hands out identifiers above zero, the instance is
    acquired once [acquire_bus] and the name-acquired callback have run:
    the callback asks for a timer of period 5 and stores its source, the
    registry is untouched, and from then on [dbus_log] does send its
    signal. *)
Theorem name_acquired_after_acquire :
  forall clock name owner_id source_id type timestamp message s w,
    0 < owner_id -> 0 < source_id ->
    let r1 := acquire_bus clock owner_id s w in
    let r2 := on_name_acquired clock name source_id (this r1) (host r1) in
    let r3 := dbus_log type timestamp message (this r2) (host r2) in
    result r2 = Returns tt /\
    this r2 = set_service_id source_id (set_bus_id owner_id s) /\
    is_acquired (this r2) = true /\
    out (host r2) =
      (out (host r1) ++
         [console_log (header_of INFO (clock (dates (host r1))))
                      ("Bus name acquired " ++ name);
          timeout_add_seconds 5])%list /\
    out (host r3) =
      (out (host r2) ++ [emit_signal "Log" [type; timestamp; message]])%list.
Proof.
  intros clock name owner_id source_id type timestamp message s w Ho Hs
         r1 r2 r3.
  assert (E2 : this r2 = set_service_id source_id (set_bus_id owner_id s)).
  { subst r2. rewrite (proj2 (on_name_acquired_ending clock _ _ _ _)).
    subst r1. rewrite (proj2 (acquire_bus_ending clock _ _ _)). reflexivity. }
  assert (A : is_acquired (this r2) = true).
  { rewrite E2. unfold is_acquired. simpl.
    apply andb_true_iff. split; apply N.ltb_lt; assumption. }
  split; [apply on_name_acquired_ending|].
  split; [exact E2|]. split; [exact A|]. split.
  - subst r2. unfold on_name_acquired. eff_run.
    rewrite <- app_assoc. reflexivity.
  - subst r3. unfold dbus_log. rewrite bind_read, A. reflexivity.
Qed.

Lemma name_acquired_after_acquire_witness :
  is_acquired
    (this (on_name_acquired noon "com.canonical.AppMenu.Registrar" 2
             (this (acquire_bus noon 1 fresh io0))
             (host (acquire_bus noon 1 fresh io0)))) = true.
Proof.
  apply (name_acquired_after_acquire noon "com.canonical.AppMenu.Registrar"
           1 2 "INFO" "12:0:0:0" "started" fresh io0);
    reflexivity.
Defined.

(** X4.  When the name is lost the callback returns, logs the loss as an
    error, asks for the timer source to be removed if one is recorded and
    puts [_service_id] back to zero; [_bus_id] and the registry stay.
    Afterwards the instance is not acquired and [dbus_log] sends
    nothing. *)
Theorem on_name_lost_clears_timer :
  forall clock name type timestamp message s w,
    let r := on_name_lost clock name s w in
    let r' := dbus_log type timestamp message (this r) (host r) in
    result r = Returns tt /\
    this r = set_service_id 0 s /\
    is_acquired (this r) = false /\
    out (host r) =
      (out w ++
         [console_log (header_of ERROR (clock (dates w)))
                      ("Bus name lost " ++ name)] ++
         (if 0 <? _service_id s
          then [source_remove (_service_id s)] else []))%list /\
    host r' = host r.
Proof.
  intros clock name type timestamp message s w r r'.
  assert (E : this r = set_service_id 0 s)
    by (apply on_name_lost_ending).
  assert (A : is_acquired (this r) = false)
    by (rewrite E; unfold is_acquired; simpl; apply andb_false_r).
  split; [apply on_name_lost_ending|].
  split; [exact E|]. split; [exact A|]. split.
  - subst r. unfold on_name_lost. eff_run.
    destruct (0 <? _service_id s); eff_run;
      rewrite <- ?app_assoc; reflexivity.
  - subst r'. unfold dbus_log. rewrite bind_read, A. reflexivity.
Qed.

(** X5.  A [release_bus] that follows the name-lost callback finds
    [_service_id] at zero: it asks for no source to be removed, only for
    the name to be unowned (if an owner is recorded) and for the object
    to be unexported. *)
Theorem release_bus_after_name_lost :
  forall clock name s w,
    let r1 := on_name_lost clock name s w in
    let r2 := release_bus clock (this r1) (host r1) in
    result r2 = Returns tt /\
    this r2 = set_service_id 0 s /\
    out (host r2) =
      (out (host r1) ++
         [console_log (header_of WARN (clock (dates (host r1))))
                      "Releasing bus"] ++
         (if 0 <? _bus_id s then [bus_unown_name (_bus_id s)] else []) ++
         [dbus_unexport])%list.
Proof.
  intros clock name s w r1 r2.
  assert (E : this r1 = set_service_id 0 s) by (apply on_name_lost_ending).
  subst r2. rewrite E. set (w1 := host r1). clearbody w1.
  split; [apply quiet_unit, quiet_release_bus|].
  split; [apply quiet_this, quiet_release_bus|].
  unfold release_bus. eff_run.
  destruct (0 <? _bus_id s); eff_run; rewrite <- ?app_assoc; reflexivity.
Qed.

Lemma is_acquired_needs_both_witness :
  (exists owner_id, In (Acquire owner_id) [Acquire 1; NameAcquired "n" 2]) /\
  (exists name source_id,
     In (NameAcquired name source_id) [Acquire 1; NameAcquired "n" 2]).
Proof.
  apply (is_acquired_needs_both noon no_menu
           [Acquire 1; NameAcquired "n" 2] io0).
  reflexivity.
Defined.

(** X7.  In the runs in which every call into the host returns (the
    export, the menu model and its items, the signals): whatever is
    called and in whatever order, nothing throws, and the fields at the
    end are those at the start changed by four kinds of call only:
    [acquire_bus] stores the owner, the name-acquired callback stores
    the timer source, the name-lost callback zeroes it, and
    [UnregisterWindow] deletes its key.  No call adds a key to the
    registry; [release_bus], [RegisterWindow], the two queries, the
    heartbeat and [dbus_log] change nothing. *)
Theorem perform_all_final_fields :
  forall clock mmget calls s w,
    let r := perform_all clock mmget calls s w in
    result r = Returns tt /\
    this r =
      fold_left
        (fun self c =>
           match c with
           | Acquire owner_id => set_bus_id owner_id self
           | NameAcquired _ source_id => set_service_id source_id self
           | NameLost _ => set_service_id 0 self
           | Unregister id =>
               set_window_map (JsMap.delete id (_window_map self)) self
           | _ => self
           end) calls s.
Proof.
  intros clock mmget calls. unfold perform_all.
  induction calls as [|c calls IH]; intros s w; cbn zeta.
  - split; reflexivity.
  - cbn [for_each fold_left]. unfold bind at 1 2.
    destruct (perform_ending clock mmget c s w) as [Hr Ht].
    rewrite Hr, Ht. apply IH.
Qed.

(** X8.  Unregistering the same window a second time changes nothing
    more: the fields after two calls are those after one, and the second
    call only logs its announcement and the warning. *)
Theorem UnregisterWindow_twice :
  forall clock window_id s w,
    let r1 := UnregisterWindow clock window_id s w in
    let r2 := UnregisterWindow clock window_id (this r1) (host r1) in
    result r2 = Returns tt /\
    this r2 = this r1 /\
    out (host r2) =
      (out (host r1) ++
         [console_log (header_of INFO (clock (dates (host r1))))
            ("Unregistering window: " ++ Js.string_of_N window_id);
          console_log (header_of WARN (clock (S (dates (host r1)))))
            "Window not registered"])%list.
Proof.
  intros clock id s w r1 r2.
  assert (H : JsMap.has id (_window_map (this r1)) = false).
  { subst r1. rewrite (proj2 (UnregisterWindow_ending clock id s w)).
    destruct (JsMap.has id (_window_map s)) eqn:E; simpl.
    - apply JsMapFacts.has_delete_same.
    - exact E. }
  subst r2. set (s1 := this r1) in *. set (w1 := host r1). clearbody s1 w1.
  unfold UnregisterWindow. eff_run. rewrite H. eff_run.
  rewrite <- app_assoc. repeat split.
Qed.

(** Two deletions commute. *)
Lemma delete_comm {V} (a b : N) (m : JsMap.t V) :
  JsMap.delete b (JsMap.delete a m) = JsMap.delete a (JsMap.delete b m).
Proof.
  unfold JsMap.delete. induction m as [|[k v] m IH]; simpl; [reflexivity|].
  destruct (N.eqb k a) eqn:Ea, (N.eqb k b) eqn:Eb; simpl;
    rewrite ?Ea, ?Eb; simpl; rewrite IH; reflexivity.
Qed.

(** X9.  Unregistering two windows gives the same fields in either
    order. *)
Theorem UnregisterWindow_commutes :
  forall clock a b s w w',
    let ab := UnregisterWindow clock b
                (this (UnregisterWindow clock a s w))
                (host (UnregisterWindow clock a s w)) in
    let ba := UnregisterWindow clock a
                (this (UnregisterWindow clock b s w'))
                (host (UnregisterWindow clock b s w')) in
    this ab = this ba.
Proof.
  intros clock a b s w w' ab ba.
  assert (D : forall k s0 w0,
    this (UnregisterWindow clock k s0 w0) =
    set_window_map (JsMap.delete k (_window_map s0)) s0).
  { intros k s0 w0. rewrite (proj2 (UnregisterWindow_ending clock k s0 w0)).
    destruct (JsMap.has k (_window_map s0)) eqn:E; [reflexivity|].
    rewrite (JsMapFacts.delete_absent _ _ E). destruct s0; reflexivity. }
  subst ab ba. rewrite !D. unfold set_window_map. simpl. f_equal.
  apply delete_comm.
Qed.

Lemma UnregisterWindow_one_entry_less_witness :
  let r := UnregisterWindow noon 9 two_windows io0 in
  S (length (_window_map (this r))) = length (_window_map two_windows) /\
  JsMap.wf (_window_map (this r)).
Proof.
  apply (UnregisterWindow_one_entry_less noon 9 two_windows io0).
  - unfold JsMap.wf. simpl. repeat constructor; simpl; intuition discriminate.
  - reflexivity.
Defined.

(** X11.  [GetWindowList] returns one identifier per entry of the
    registry: a window is listed exactly when [has] finds it, and no
    identifier is listed twice as long as the registry holds no key
    twice. *)
Theorem GetWindowList_lists_registered :
  forall clock s w,
    exists ids,
      result (GetWindowList clock s w) = Returns ids /\
      length ids = length (_window_map s) /\
      (forall k, In k ids <-> JsMap.has k (_window_map s) = true) /\
      (JsMap.wf (_window_map s) -> NoDup ids).
Proof.
  intros clock s w. exists (JsMap.keys (_window_map s)).
  split; [apply GetWindowList_result|].
  split; [unfold JsMap.keys; apply length_map|].
  split; [intros k; symmetry; apply JsMapFacts.has_In_keys|].
  intros H. exact H.
Qed.

(** X12.  The console after [GetWindowList]: the announcement, then one
    line per entry in the order of the registry, each with its own clock
    reading.  The line names the window identifier; in place of the menu
    path it shows the string conversion of the stored object. *)
Theorem GetWindowList_console :
  forall clock s w,
    let r := GetWindowList clock s w in
    this r = s /\
    dates (host r) = S (dates w + length (_window_map s)) /\
    out (host r) =
      (out w ++
         console_log (header_of INFO (clock (dates w))) "Getting window list"
         :: map (fun p =>
                   console_log
                     (header_of INFO (clock (fst p)))
                     ("Window: " ++ Js.string_of_N (fst (snd p))
                        ++ " - [object Object]"))
                (combine (seq (S (dates w)) (length (_window_map s)))
                         (_window_map s)))%list.
Proof.
  intros clock s w r. subst r.
  split; [apply quiet_this, quiet_GetWindowList|].
  unfold GetWindowList.
  rewrite bind_quiet by logs.
  rewrite bind_read.
  rewrite (for_each_ext _ _
             (fun p => info clock
                [Js.Str ("Window: " ++ Js.string_of_N (fst p)
                           ++ " - [object Object]")]))
    by (intros [k v]; reflexivity).
  rewrite (bind_returns _ _ _ _ _ _ _
             (for_each_info_ending clock
                (fun p : N * window =>
                   "Window: " ++ Js.string_of_N (fst p) ++ " - [object Object]")
                _ _ _)).
  rewrite bind_read.
  unfold info. erewrite log_console by first [discriminate | reflexivity].
  unfold JsMap.entries. cbn [ret host dates out].
  rewrite <- app_assoc. split; reflexivity.
Qed.

(** X13.  After [UnregisterWindow], [GetWindowList] returns the earlier
    list without that identifier, the others in their order; for a
    window that was not registered that is the earlier list itself. *)
Theorem GetWindowList_after_UnregisterWindow :
  forall clock window_id s w,
    let r1 := UnregisterWindow clock window_id s w in
    let r2 := GetWindowList clock (this r1) (host r1) in
    result r2 =
      Returns (List.remove N.eq_dec window_id (JsMap.keys (_window_map s))) /\
    (JsMap.has window_id (_window_map s) = false ->
     result r2 = Returns (JsMap.keys (_window_map s))).
Proof.
  intros clock id s w r1 r2. subst r2. rewrite GetWindowList_result.
  subst r1. rewrite (proj2 (UnregisterWindow_ending clock id s w)).
  destruct (JsMap.has id (_window_map s)) eqn:E; simpl.
  - split; [|discriminate]. rewrite JsMapFacts.keys_delete. reflexivity.
  - assert (N : ~ In id (JsMap.keys (_window_map s))).
    { intros H. apply JsMapFacts.has_In_keys in H. congruence. }
    rewrite (notin_remove N.eq_dec _ _ N). split; reflexivity.
Qed.

(** X14.  In the runs in which the calls into Gio for the menu model and
    its items return: [RegisterWindow] returns and changes no field.  On
    the console it announces the window and the path, warns exactly when
    the window is already in the registry, asks for the menu model of
    the given path on the bus name com.canonical.menu, logs the model
    and its number of items, and then one line per item, in order. *)
Theorem RegisterWindow_console :
  forall clock mmget window_id menu_object_path s w,
    let mm := mmget "com.canonical.menu" menu_object_path in
    let known := JsMap.has window_id (_window_map s) in
    let d := ((if known then 3 else 2) + dates w)%nat in
    let r := RegisterWindow clock mmget window_id menu_object_path s w in
    result r = Returns tt /\
    this r = s /\
    dates (host r) = (S (S d) + get_n_items mm)%nat /\
    out (host r) =
      (out w ++
         [console_log (header_of INFO (clock (dates w)))
            ("Registering window: " ++ Js.string_of_N window_id);
          console_log (header_of INFO (clock (S (dates w))))
            ("Menu Object Path: " ++ menu_object_path)] ++
         (if known
          then [console_log (header_of WARN (clock (S (S (dates w)))))
                            "Window already registered"]
          else []) ++
         [menu_model_get "com.canonical.menu" menu_object_path;
          console_log (header_of INFO (clock d))
            ("Menu Model: " ++ mm_to_string mm);
          console_log (header_of INFO (clock (S d)))
            ("Menu Model: " ++ Js.string_of_N (N.of_nat (get_n_items mm)))] ++
         map (fun p => console_log (header_of INFO (clock (fst p)))
                                   ("Item: " ++ item_to_string mm (snd p)))
             (combine (seq (S (S d)) (get_n_items mm))
                      (seq 0 (get_n_items mm))))%list.
Proof.
  intros clock mmget id path s w mm known d r.
  split; [apply quiet_unit, quiet_RegisterWindow|].
  split; [apply quiet_this, quiet_RegisterWindow|].
  subst r. unfold RegisterWindow. fold mm.
  do 2 (erewrite bind_info by reflexivity). rewrite bind_read. fold known.
  destruct known; cbn [when].
  - erewrite bind_warn by reflexivity. rewrite bind_emit.
    do 2 (erewrite bind_info by reflexivity).
    rewrite (for_each_info_ending clock (fun i => "Item: " ++ item_to_string mm i)).
    subst d. cbn [host dates out]. rewrite length_seq.
    rewrite <- !app_assoc. split; reflexivity.
  - rewrite bind_ret, bind_emit.
    do 2 (erewrite bind_info by reflexivity).
    rewrite (for_each_info_ending clock (fun i => "Item: " ++ item_to_string mm i)).
    subst d. cbn [host dates out]. rewrite length_seq.
    rewrite <- !app_assoc. split; reflexivity.
Qed.

(** X15.  Start-up: [main] builds the instance and calls [acquire_bus].
    Nothing is held yet, so the release that opens [acquire_bus] asks
    only for the unexport; then the name is requested and the owner
    stored.  At the end of [main] the timer is not yet installed, and
    the instance is not acquired whatever owner the host handed out. *)
Theorem main_startup :
  forall clock path owner_id w,
    let r := main clock path owner_id w in
    result r = Returns tt /\
    this r = set_bus_id owner_id fresh /\
    is_acquired (this r) = false /\
    out (host r) =
      (out w ++
         [console_log (header_of INFO (clock (dates w))) ("Path: " ++ path);
          console_log (header_of WARN (clock (S (dates w)))) "Releasing bus";
          dbus_unexport;
          console_log (header_of INFO (clock (S (S (dates w)))))
                      "Acquiring bus";
          bus_own_name "com.canonical.AppMenu.Registrar";
          console_log (header_of INFO (clock (S (S (S (dates w))))))
                      ("Bus ID: " ++ Js.string_of_N owner_id)])%list.
Proof.
  intros clock path owner_id w r. subst r.
  unfold main, constructor, acquire_bus, release_bus.
  eff_steps.
  unfold info. erewrite log_console by first [discriminate | reflexivity].
  cbn [result this host dates out].
  rewrite <- !app_assoc.
  repeat split. unfold is_acquired. simpl. apply andb_false_r.
Qed.

(* ===================================================================== *)
(** * Further properties of the logger *)
(* ===================================================================== *)


(** X17.  The header tells the level: two headers are equal only if
    they were made for the same level, whatever the clock readings. *)
Theorem header_of_level :
  forall type1 type2 date1 date2,
    header_of type1 date1 = header_of type2 date2 -> type1 = type2.
Proof.
  intros type1 type2 date1 date2 H. unfold header_of in H.
  destruct type1, type2; try reflexivity; simpl in H; discriminate H.
Qed.

Lemma header_of_level_witness : WARN = WARN.
Proof.
  apply (header_of_level WARN WARN (noon 0) (noon 1)). reflexivity.
Defined.
